(** * Cycles render mesh: a shallow embedding of [intern/cycles/render/mesh.h]

    The header declares the geometry aggregate [Mesh] with its nested
    primitive structs ([Triangle], [Curve], [Patch], [SubPatch]) and the
    scene-wide [MeshManager].  The inline member functions of the nested
    structs are embedded below as executable Rocq functions; the member
    functions that the header only declares are modelled in separate
    modules, each one marked as such.

    Conventions:
    - a C++ [int] is a [Z] in the range [INT_MIN .. INT_MAX]; signed
      arithmetic has no defined result on overflow, so it returns [option];
    - a C++ [float] is an IEEE-754 value ([spec_float]) and is compared
      with the IEEE equality [SFeqb];
    - a fixed array [T a[4]] is a record of four cells indexed by [idx4];
    - a [vector<T>] is a [list T], a [size_t] is a [nat]. *)

From Stdlib Require Import ZArith Bool List Lia.
From Stdlib Require Import Floats.SpecFloat.
From stdpp Require Import base option list.

Local Open Scope Z_scope.

(* ------------------------------------------------------------------ *)
(** ** Machine integers *)

Module CInt.

Definition INT_MIN : Z := - 2 ^ 31.
Definition INT_MAX : Z := 2 ^ 31 - 1.

Definition in_range (z : Z) : bool := (INT_MIN <=? z) && (z <=? INT_MAX).

(** [a - b] on [int]: the mathematical result when it is representable,
    no result otherwise (signed overflow is undefined in C++). *)
Definition sub (a b : Z) : option Z :=
  if in_range (a - b) then Some (a - b) else None.

(** [a != b] on [int]. *)
Definition ne (a b : Z) : bool := negb (a =? b).

End CInt.

(* ------------------------------------------------------------------ *)
(** ** Floats and small float vectors *)

Definition float : Type := spec_float.

(** The built-in [==] on [float]: IEEE-754 comparison, under which a NaN
    differs from every value and the two zeros are equal. *)
Definition float_eq (a b : float) : bool := SFeqb a b.

Definition is_nan (a : float) : bool :=
  match a with S754_nan => true | _ => false end.

(** What [float_eq] decides, case by case: both operands are zeros (of any
    sign), or infinities of one sign, or finite numbers with the same sign,
    mantissa and exponent.  A NaN is in relation with nothing. *)
Definition float_same (a b : float) : Prop :=
  match a, b with
  | S754_zero _, S754_zero _ => True
  | S754_infinity s1, S754_infinity s2 => s1 = s2
  | S754_finite s1 m1 e1, S754_finite s2 m2 e2 => s1 = s2 /\ m1 = m2 /\ e1 = e2
  | _, _ => False
  end.

(** Modelled from the spec: [float2] is declared in util_types.h and its
    comparison operators in util_math.h, outside the header embedded here.
    The spec calls the field "4 corner UV coordinates" that have to
    "match"; a [float2] is taken as a pair of floats whose [==] compares
    both coordinates with the built-in float [==] and whose [!=] is its
    negation. *)
Record float2 : Type := make_float2 { float2_x : float; float2_y : float }.

Definition float2_eq (a b : float2) : bool :=
  float_eq (float2_x a) (float2_x b) && float_eq (float2_y a) (float2_y b).

Definition float2_ne (a b : float2) : bool := negb (float2_eq a b).

Definition float2_has_nan (a : float2) : bool :=
  is_nan (float2_x a) || is_nan (float2_y a).

Record float3 : Type :=
  make_float3 { float3_x : float; float3_y : float; float3_z : float }.

Record float4 : Type :=
  make_float4 { float4_x : float; float4_y : float; float4_z : float;
                float4_w : float }.

(** Modelled from the spec: [BoundBox] is declared in util_boundbox.h,
    outside the header embedded here; the spec calls it "a bounding
    volume".  It is taken as a pair of corner points. *)
Record BoundBox : Type := make_boundbox { bb_min : float3; bb_max : float3 }.

Definition float_zero : float := S754_zero false.
Definition float_inf (neg : bool) : float := S754_infinity neg.

(** [BoundBox::empty]: the box that grows from nothing. *)
Definition BoundBox_empty : BoundBox :=
  make_boundbox
    (make_float3 (float_inf false) (float_inf false) (float_inf false))
    (make_float3 (float_inf true) (float_inf true) (float_inf true)).

(* ------------------------------------------------------------------ *)
(** ** Arrays of four cells *)

Inductive idx4 : Type := I0 | I1 | I2 | I3.

(** The indices visited by [for(int i = 0; i < 4; i++)], in order. *)
Definition all_idx4 : list idx4 := [I0; I1; I2; I3].

Record array4 (A : Type) : Type :=
  make_array4 { cell0 : A; cell1 : A; cell2 : A; cell3 : A }.
Arguments make_array4 {A} _ _ _ _.
Arguments cell0 {A} _.
Arguments cell1 {A} _.
Arguments cell2 {A} _.
Arguments cell3 {A} _.

Definition get4 {A : Type} (a : array4 A) (i : idx4) : A :=
  match i with
  | I0 => cell0 a
  | I1 => cell1 a
  | I2 => cell2 a
  | I3 => cell3 a
  end.

(* ------------------------------------------------------------------ *)
(** ** Mesh::Triangle *)

Module Triangle.

(** [int v[3]] *)
Record t : Type := make { v0 : Z; v1 : Z; v2 : Z }.

End Triangle.

(* ------------------------------------------------------------------ *)
(** ** Mesh::Curve *)

Module Curve.

Record t : Type := make { first_key : Z; num_keys : Z; shader : Z }.

(** [int num_segments() { return num_keys - 1; }] *)
Definition num_segments (c : t) : option Z := CInt.sub (num_keys c) 1.

End Curve.

(* ------------------------------------------------------------------ *)
(** ** Mesh::Patch *)

Module Patch.

(** [v[3]] is -1 if triangle patch. *)
Record t : Type := make { v : array4 Z; shader : Z; smooth : bool }.

(** [bool is_quad() const { return v[3] != -1; }] *)
Definition is_quad (p : t) : bool := CInt.ne (get4 (v p) I3) (-1).

End Patch.

(* ------------------------------------------------------------------ *)
(** ** Mesh::SubPatch *)

Module SubPatch.

Record t : Type :=
  make { patch : Z;
         edge_factors : array4 Z;
         uv : array4 float2;
         bounds : BoundBox }.

(** [bool is_quad() const { return edge_factors[3] != -1; }] *)
Definition is_quad (s : t) : bool := CInt.ne (get4 (edge_factors s) I3) (-1).

(** The test of the loop body of [operator==] at index [i]:
    [(edge_factors[i] != other.edge_factors[i]) || (uv[i] != other.uv[i])]. *)
Definition differs_at (a b : t) (i : idx4) : bool :=
  CInt.ne (get4 (edge_factors a) i) (get4 (edge_factors b) i)
  || float2_ne (get4 (uv a) i) (get4 (uv b) i).

(** The loop of [operator==] over the indices still to visit: leave with
    [false] at the first index where the operands differ, fall through
    to [return true]. *)
Fixpoint eq_loop (a b : t) (todo : list idx4) : bool :=
  match todo with
  | [] => true
  | i :: rest => if differs_at a b i then false else eq_loop a b rest
  end.

(** [bool operator == (const SubPatch& other) const] *)
Definition op_eq (a b : t) : bool :=
  if CInt.ne (patch a) (patch b) then false else eq_loop a b all_idx4.

(** [bool operator != (const SubPatch& other) const]: the negation of
    [operator ==] on the same operands. *)
Definition op_ne (a b : t) : bool := negb (op_eq a b).

(** The same subpatch with another bounding volume. *)
Definition with_bounds (s : t) (bb : BoundBox) : t :=
  make (patch s) (edge_factors s) (uv s) bb.

(** No coordinate of any of the four UVs is a NaN. *)
Definition uv_nan_free (s : t) : bool :=
  forallb (fun i => negb (float2_has_nan (get4 (uv s) i))) all_idx4.

End SubPatch.

(** Two sample subpatches: a quad on the unit square with edge factors 2,
    and a subpatch whose first UV carries a NaN coordinate. *)
Definition float_one : float := S754_finite false 8388608 (-23).

Definition unit_quad_subpatch : SubPatch.t :=
  SubPatch.make 0 (make_array4 2 2 2 2)
    (make_array4 (make_float2 float_zero float_zero)
                 (make_float2 float_one float_zero)
                 (make_float2 float_one float_one)
                 (make_float2 float_zero float_one))
    BoundBox_empty.

Definition nan_uv_subpatch : SubPatch.t :=
  SubPatch.make 0 (make_array4 2 2 2 2)
    (make_array4 (make_float2 S754_nan float_zero)
                 (make_float2 float_one float_zero)
                 (make_float2 float_one float_one)
                 (make_float2 float_zero float_one))
    BoundBox_empty.

(** The unit quad again, with a bounding volume that is not the empty one. *)
Definition unit_quad_boxed : SubPatch.t :=
  SubPatch.with_bounds unit_quad_subpatch
    (make_boundbox (make_float3 float_zero float_zero float_zero)
                   (make_float3 float_one float_one float_one)).

(* ------------------------------------------------------------------ *)
(** ** Mesh *)

(** [enum DisplacementMethod]; [DISPLACE_NUM_METHODS] is the count that
    closes the enumeration. *)
Inductive DisplacementMethod : Type :=
  DISPLACE_BUMP | DISPLACE_TRUE | DISPLACE_BOTH | DISPLACE_NUM_METHODS.

Definition DisplacementMethod_value (d : DisplacementMethod) : Z :=
  match d with
  | DISPLACE_BUMP => 0
  | DISPLACE_TRUE => 1
  | DISPLACE_BOTH => 2
  | DISPLACE_NUM_METHODS => 3
  end.

(** [enum GeometryFlags], the bits of [geometry_flags]. *)
Definition GEOMETRY_NONE : Z := 0.
Definition GEOMETRY_TRIANGLES : Z := Z.shiftl 1 0.
Definition GEOMETRY_CURVES : Z := Z.shiftl 1 1.

Inductive SubdivisionType : Type :=
  SUBDIVISION_NONE | SUBDIVISION_LINEAR | SUBDIVISION_CATMALL_CLARK.

Module Mesh.

(** The data members of [class Mesh], in the order of the header.  The
    members of types that the header only forward-declares or includes
    ([name], [osd_data], [attributes], [curve_attributes],
    [transform_normal], [bvh]) carry no state that the functions below
    read, and are left out. *)
Record t : Type :=
  make { subdivision_type : SubdivisionType;
         geometry_flags : Z;
         verts : list float3;
         triangles : list Triangle.t;
         shader : list Z;
         smooth : list bool;
         has_volume : bool;
         has_surface_bssrdf : bool;
         curve_keys : list float4;
         curves : list Curve.t;
         patches : list Patch.t;
         subpatches : list SubPatch.t;
         used_shaders : list Z;
         bounds : BoundBox;
         transform_applied : bool;
         transform_negative_scaled : bool;
         displacement_method : DisplacementMethod;
         motion_steps : Z;
         use_motion_blur : bool;
         displacement_scale : float;
         need_update : bool;
         need_update_rebuild : bool;
         tri_offset : nat;
         vert_offset : nat;
         curve_offset : nat;
         curvekey_offset : nat;
         patch_offset : nat }.

(** Assignment to the two update flags. *)
Definition set_update_flags (m : t) (update rebuild : bool) : t :=
  make (subdivision_type m) (geometry_flags m) (verts m) (triangles m)
       (shader m) (smooth m) (has_volume m) (has_surface_bssrdf m)
       (curve_keys m) (curves m) (patches m) (subpatches m) (used_shaders m)
       (bounds m) (transform_applied m) (transform_negative_scaled m)
       (displacement_method m) (motion_steps m) (use_motion_blur m)
       (displacement_scale m)
       update rebuild
       (tri_offset m) (vert_offset m) (curve_offset m) (curvekey_offset m)
       (patch_offset m).

(** Assignment to [tri_offset] and [vert_offset]. *)
Definition set_tri_vert_offset (m : t) (tri vert : nat) : t :=
  make (subdivision_type m) (geometry_flags m) (verts m) (triangles m)
       (shader m) (smooth m) (has_volume m) (has_surface_bssrdf m)
       (curve_keys m) (curves m) (patches m) (subpatches m) (used_shaders m)
       (bounds m) (transform_applied m) (transform_negative_scaled m)
       (displacement_method m) (motion_steps m) (use_motion_blur m)
       (displacement_scale m)
       (need_update m) (need_update_rebuild m)
       tri vert (curve_offset m) (curvekey_offset m)
       (patch_offset m).

(** Assignment to [curve_offset] and [curvekey_offset]. *)
Definition set_curve_offsets (m : t) (curve curvekey : nat) : t :=
  make (subdivision_type m) (geometry_flags m) (verts m) (triangles m)
       (shader m) (smooth m) (has_volume m) (has_surface_bssrdf m)
       (curve_keys m) (curves m) (patches m) (subpatches m) (used_shaders m)
       (bounds m) (transform_applied m) (transform_negative_scaled m)
       (displacement_method m) (motion_steps m) (use_motion_blur m)
       (displacement_scale m)
       (need_update m) (need_update_rebuild m)
       (tri_offset m) (vert_offset m) curve curvekey
       (patch_offset m).

(** A mesh with no geometry, clear flags and zero offsets. *)
Definition empty : t :=
  make SUBDIVISION_NONE GEOMETRY_NONE [] [] [] [] false false [] [] [] [] []
       BoundBox_empty false false DISPLACE_BUMP 0 false float_one
       false false 0%nat 0%nat 0%nat 0%nat 0%nat.

End Mesh.

(* ------------------------------------------------------------------ *)
(** ** MeshManager and the scene *)

Module MeshManager.

Record t : Type :=
  make { need_update : bool;
         need_flags_update : bool;
         need_clear_geom_cache : bool }.

(** Modelled from the spec: the body of [MeshManager::tag_update(Scene* )]
    is in mesh.cpp.  The spec (4.3) has a tagged mesh propagate "to the
    scene-wide manager flags so a full scene recompute can be scheduled":
    the manager's [need_update] is raised. *)
Definition tag_update (mm : t) : t :=
  make true (need_flags_update mm) (need_clear_geom_cache mm).

End MeshManager.

Module Scene.

(** Modelled from the spec: [class Scene] is only forward-declared in the
    header.  What the functions below need of it is the list of meshes,
    the mesh manager and "the scene's flattened shader table". *)
Record t : Type :=
  make { meshes : list Mesh.t;
         mesh_manager : MeshManager.t;
         shaders : list Z }.

End Scene.

(* ------------------------------------------------------------------ *)
(** ** Update tracker

    [Mesh::tag_update], [Mesh::need_build_bvh] and
    [MeshManager::device_update] are declared in the header and defined in
    mesh.cpp; they are modelled from section 4.3 and 4.5 of the spec and
    from the comment above the declaration of [need_build_bvh]. *)

Module UpdateTracker.

(** Modelled from the spec: the body of [Mesh::tag_update] is in mesh.cpp.
    Per the spec, [need_update] is "set whenever any geometry-affecting
    field changes", [need_update_rebuild] is "set when a change invalidates
    the acceleration structure topology", and [tag_update(scene, rebuild)]
    is "the only mutator": it raises [need_update], raises
    [need_update_rebuild] when [rebuild] is set and leaves it as it is
    otherwise. *)
Definition tag_mesh (rebuild : bool) (m : Mesh.t) : Mesh.t :=
  Mesh.set_update_flags m true
    (if rebuild then true else Mesh.need_update_rebuild m).

(** Modelled from the spec: [tag_update] on the mesh at index [i] of the
    scene, which also "propagates to the scene-wide manager flags". *)
Definition tag_update (sc : Scene.t) (i : nat) (rebuild : bool) : Scene.t :=
  Scene.make (alter (tag_mesh rebuild) i (Scene.meshes sc))
             (MeshManager.tag_update (Scene.mesh_manager sc))
             (Scene.shaders sc).

(** How a device-update pass ends: it runs through all its stages, or it
    is cancelled between two mesh-level stages. *)
Inductive pass_outcome : Type := Completed | Cancelled.

(** Modelled from the spec: both flags of a mesh are "cleared only after a
    full device-update pass completes", "together". *)
Definition clear_mesh (m : Mesh.t) : Mesh.t :=
  Mesh.set_update_flags m false false.

(** Modelled from the spec: the body of [MeshManager::device_update] is in
    mesh.cpp.  Per section 4.5 the mesh stages "are skipped entirely when
    the relevant flags ... are already clear"; per section 5 a cancelled
    pass leaves "all flags in a consistent still dirty state"; a completed
    pass clears the flags of every mesh and those of the manager. *)
Definition device_update (o : pass_outcome) (sc : Scene.t) : Scene.t :=
  match o with
  | Cancelled => sc
  | Completed =>
      let mm := Scene.mesh_manager sc in
      Scene.make
        (if MeshManager.need_update mm
         then clear_mesh <$> Scene.meshes sc
         else Scene.meshes sc)
        (MeshManager.make false false (MeshManager.need_clear_geom_cache mm))
        (Scene.shaders sc)
  end.

(** What can happen to the flags of a scene: some mesh is tagged, or a
    device-update pass ends. *)
Inductive event : Type :=
| TagUpdate (mesh : nat) (rebuild : bool)
| DeviceUpdate (o : pass_outcome).

Definition step (sc : Scene.t) (e : event) : Scene.t :=
  match e with
  | TagUpdate i rebuild => tag_update sc i rebuild
  | DeviceUpdate o => device_update o sc
  end.

Definition run (sc : Scene.t) (tr : list event) : Scene.t :=
  fold_left step tr sc.

(** No event of the trace is a completed pass. *)
Definition no_completed_pass (tr : list event) : Prop :=
  Forall (fun e => e <> DeviceUpdate Completed) tr.

(** Both update flags of the mesh at index [i] have the value [b]. *)
Definition flags_are (sc : Scene.t) (i : nat) (b : bool) : Prop :=
  exists m, Scene.meshes sc !! i = Some m
            /\ Mesh.need_update m = b /\ Mesh.need_update_rebuild m = b.

(** The state between a rebuild tag and the next completed pass: the mesh
    is dirty in both flags and the manager knows of it. *)
Definition dirty (sc : Scene.t) (i : nat) : Prop :=
  flags_are sc i true
  /\ MeshManager.need_update (Scene.mesh_manager sc) = true.

(** Modelled from the spec: the body of [Mesh::need_build_bvh] is in
    mesh.cpp.  The comment above its declaration asks for an own BVH when
    the mesh "is instanced multiple times" or when "special ray
    intersection is needed, for example to limit subsurface rays to only
    the mesh itself"; the spec (4.3) says the same with "OR".  The number
    of instances is a query on the scene's object list and comes in as
    [num_instances]; the need for mesh-local intersection comes in as
    [local_intersection]. *)
Definition need_build_bvh (num_instances : nat) (local_intersection : bool)
  : bool :=
  (2 <=? num_instances)%nat || local_intersection.

End UpdateTracker.

(* ------------------------------------------------------------------ *)
(** ** Device packer

    [Mesh::pack_verts] and [Mesh::pack_curves] are declared in the header
    and defined in mesh.cpp; they are modelled from section 4.4 of the
    spec.  An output array is a list that stands for the scene-wide
    buffer; a write past its end has no defined result. *)

Module Packer.

(** The "index record" of a triangle: the absolute slots of its three
    emitted positions.  (The header types the array as [float4*]; the
    record holds the integers themselves.) *)
Record vindex : Type := make_vindex { vi0 : nat; vi1 : nat; vi2 : nat }.

(** The record emitted per curve: absolute first key, key count, shader. *)
Record curve_data : Type :=
  make_curve_data { cd_first_key : Z; cd_num_keys : Z; cd_shader : Z }.

(** [buf[slot] = x] for one pair [(slot, x)]. *)
Definition store {A : Type} (buf : list A) (w : nat * A) : option (list A) :=
  if decide (w.1 < length buf)%nat then Some (<[w.1 := w.2]> buf) else None.

(** A sequence of such assignments, in order. *)
Fixpoint store_all {A : Type} (ws : list (nat * A)) (buf : list A)
  : option (list A) :=
  match ws with
  | [] => Some buf
  | w :: rest => buf' ← store buf w; store_all rest buf'
  end.

(** The value that a sequence of assignments leaves in a slot, if it
    touches the slot at all: that of the last assignment to it. *)
Fixpoint written {A : Type} (ws : list (nat * A)) (slot : nat) : option A :=
  match ws with
  | [] => None
  | w :: rest =>
      match written rest slot with
      | Some x => Some x
      | None => if decide (w.1 = slot) then Some w.2 else None
      end
  end.

(** [vector[i]] for an [int] index: defined inside the vector only. *)
Definition at_index {A : Type} (l : list A) (i : Z) : option A :=
  if 0 <=? i then l !! Z.to_nat i else None.

(** A vertex position as the [float4] that goes to the device. *)
Definition position (p : float3) : float4 :=
  make_float4 (float3_x p) (float3_y p) (float3_z p) float_zero.

(** Modelled from the spec: what [pack_verts] emits for the triangle at
    index [k] of the mesh, "its 3 resolved vertex positions", at the three
    slots that follow [vert_offset + 3 * k]. *)
Definition triangle_writes (verts : list float3) (vert_offset k : nat)
  (tri : Triangle.t) : option (list (nat * float4)) :=
  p0 ← at_index verts (Triangle.v0 tri);
  p1 ← at_index verts (Triangle.v1 tri);
  p2 ← at_index verts (Triangle.v2 tri);
  Some [ (vert_offset + 3 * k, position p0)%nat;
         (vert_offset + 3 * k + 1, position p1)%nat;
         (vert_offset + 3 * k + 2, position p2)%nat ].

(** Modelled from the spec: "and an index record", whose "offsets are
    absolute within the scene-wide buffer". *)
Definition index_write (vert_offset tri_offset k : nat) (tri : Triangle.t)
  : nat * vindex :=
  ((tri_offset + k)%nat,
   make_vindex (vert_offset + 3 * k) (vert_offset + 3 * k + 1)
               (vert_offset + 3 * k + 2)).

(** Modelled from the spec: the body of [Mesh::pack_verts] is in mesh.cpp.
    Per section 4.4 it "emits, per triangle, its 3 resolved vertex
    positions and an index record; offsets are absolute within the
    scene-wide buffer, recorded back into the mesh (vert_offset,
    tri_offset)".  The index records go to the slots that follow the
    [tri_offset] the mesh holds. *)
Definition pack_verts (m : Mesh.t) (tri_verts : list float4)
  (tri_vindex : list vindex) (vert_offset : nat)
  : option (Mesh.t * list float4 * list vindex) :=
  vws ← mapM id (imap (triangle_writes (Mesh.verts m) vert_offset)
                      (Mesh.triangles m));
  tv ← store_all (concat vws) tri_verts;
  ti ← store_all (imap (index_write vert_offset (Mesh.tri_offset m))
                       (Mesh.triangles m)) tri_vindex;
  Some (Mesh.set_tri_vert_offset m (Mesh.tri_offset m) vert_offset, tv, ti).

(** Modelled from the spec: the curve keys (position and radius) go to the
    slots that follow [curvekey_offset]. *)
Definition key_write (curvekey_offset j : nat) (key : float4) : nat * float4 :=
  ((curvekey_offset + j)%nat, key).

(** Modelled from the spec: the record of the curve at index [k], with its
    first key made absolute and its shader "resolved against the scene's
    flattened shader table". *)
Definition curve_write (shaders : list Z) (curve_offset curvekey_offset k : nat)
  (c : Curve.t) : option (nat * curve_data) :=
  s ← at_index shaders (Curve.shader c);
  Some ((curve_offset + k)%nat,
        make_curve_data (Curve.first_key c + Z.of_nat curvekey_offset)
                        (Curve.num_keys c) s).

(** Modelled from the spec: the body of [Mesh::pack_curves] is in mesh.cpp.
    Per section 4.4 it is the "analogous flattening for curve primitives,
    recording curve_offset/curvekey_offset". *)
Definition pack_curves (m : Mesh.t) (sc : Scene.t) (curve_key_co : list float4)
  (curve_records : list curve_data) (curvekey_offset : nat)
  : option (Mesh.t * list float4 * list curve_data) :=
  cws ← mapM id (imap (curve_write (Scene.shaders sc) (Mesh.curve_offset m)
                                   curvekey_offset)
                      (Mesh.curves m));
  kc ← store_all (imap (key_write curvekey_offset) (Mesh.curve_keys m))
                 curve_key_co;
  cd ← store_all cws curve_records;
  Some (Mesh.set_curve_offsets m (Mesh.curve_offset m) curvekey_offset, kc, cd).

End Packer.

(* ------------------------------------------------------------------ *)
(** ** Sample data *)

(** A scene of two clean meshes whose manager has nothing to do, and a run
    of events with no completed pass in it. *)
Definition two_mesh_scene : Scene.t :=
  Scene.make [Mesh.empty; Mesh.empty] (MeshManager.make false false false) [7].

Definition quiet_trace : list UpdateTracker.event :=
  [ UpdateTracker.TagUpdate 1%nat false;
    UpdateTracker.DeviceUpdate UpdateTracker.Cancelled;
    UpdateTracker.TagUpdate 0%nat false ].

Definition float4_zero : float4 :=
  make_float4 float_zero float_zero float_zero float_zero.

(** One triangle over three vertices and one curve of two keys. *)
Definition one_triangle_mesh : Mesh.t :=
  Mesh.make SUBDIVISION_NONE (Z.lor GEOMETRY_TRIANGLES GEOMETRY_CURVES)
    [ make_float3 float_zero float_zero float_zero;
      make_float3 float_one float_zero float_zero;
      make_float3 float_zero float_one float_zero ]
    [ Triangle.make 0 1 2 ] [0] [true] false false
    [ make_float4 float_zero float_zero float_zero float_one;
      make_float4 float_one float_one float_one float_one ]
    [ Curve.make 0 2 0 ] [] [] [0]
    BoundBox_empty false false DISPLACE_BUMP 0 false float_one
    true true 1%nat 0%nat 1%nat 0%nat 0%nat.

(** Scene-wide buffers before packing, and what packing the sample mesh at
    vertex offset 2 and at curve-key offset 3 leaves in them. *)
Definition fresh_vindex : Packer.vindex := Packer.make_vindex 0 0 0.
Definition fresh_curve_data : Packer.curve_data := Packer.make_curve_data 0 0 0.

Definition fresh_tri_verts : list float4 := replicate 6 float4_zero.
Definition fresh_tri_vindex : list Packer.vindex := replicate 2 fresh_vindex.
Definition fresh_curve_key_co : list float4 := replicate 5 float4_zero.
Definition fresh_curve_records : list Packer.curve_data :=
  replicate 2 fresh_curve_data.

Definition packed_verts_mesh : Mesh.t :=
  Mesh.set_tri_vert_offset one_triangle_mesh 1 2.

Definition packed_tri_verts : list float4 :=
  [ float4_zero; float4_zero;
    make_float4 float_zero float_zero float_zero float_zero;
    make_float4 float_one float_zero float_zero float_zero;
    make_float4 float_zero float_one float_zero float_zero;
    float4_zero ].

Definition packed_tri_vindex : list Packer.vindex :=
  [ fresh_vindex; Packer.make_vindex 2 3 4 ].

Definition packed_curves_mesh : Mesh.t :=
  Mesh.set_curve_offsets one_triangle_mesh 1 3.

Definition packed_curve_key_co : list float4 :=
  [ float4_zero; float4_zero; float4_zero;
    make_float4 float_zero float_zero float_zero float_one;
    make_float4 float_one float_one float_one float_one ].

Definition packed_curve_records : list Packer.curve_data :=
  [ fresh_curve_data; Packer.make_curve_data 3 2 7 ].

(* ------------------------------------------------------------------ *)
(** ** Canonical form of a subpatch under [operator==]

    The float [==] does not see the sign of a zero.  Clearing that sign in
    every UV coordinate gives the form of a subpatch on which [operator==]
    can be compared with plain identity of the fields it reads. *)

Definition map4 {A B : Type} (f : A -> B) (a : array4 A) : array4 B :=
  make_array4 (f (cell0 a)) (f (cell1 a)) (f (cell2 a)) (f (cell3 a)).

Definition float_unsigned_zero (a : float) : float :=
  match a with
  | S754_zero _ => S754_zero false
  | _ => a
  end.

Definition float2_unsigned_zero (u : float2) : float2 :=
  make_float2 (float_unsigned_zero (float2_x u))
              (float_unsigned_zero (float2_y u)).

Definition subpatch_unsigned_zeros (s : SubPatch.t) : SubPatch.t :=
  SubPatch.make (SubPatch.patch s) (SubPatch.edge_factors s)
                (map4 float2_unsigned_zero (SubPatch.uv s))
                (SubPatch.bounds s).

(** The members that [operator==] reads. *)
Definition subpatch_key (s : SubPatch.t) : Z * array4 Z * array4 float2 :=
  (SubPatch.patch s, SubPatch.edge_factors s, SubPatch.uv s).

(** A float that is neither a NaN nor the negative zero. *)
Definition float_plain (a : float) : bool :=
  match a with
  | S754_nan => false
  | S754_zero true => false
  | _ => true
  end.

Definition float2_plain (u : float2) : bool :=
  float_plain (float2_x u) && float_plain (float2_y u).

Definition uv_plain (s : SubPatch.t) : bool :=
  forallb (fun i => float2_plain (get4 (SubPatch.uv s) i)) all_idx4.

(** A curve whose key count is the least [int]. *)
Definition int_min_curve : Curve.t := Curve.make 0 CInt.INT_MIN 0.

(** The unit quad with the sign of one zero UV coordinate set. *)
Definition neg_zero_uv_subpatch : SubPatch.t :=
  SubPatch.make 0 (make_array4 2 2 2 2)
    (make_array4 (make_float2 (S754_zero true) float_zero)
                 (make_float2 float_one float_zero)
                 (make_float2 float_one float_one)
                 (make_float2 float_zero float_one))
    BoundBox_empty.

(* ================================================================== *)
(** * Properties of the inline member functions *)

Section FloatComparison.

Lemma float_eq_spec (a b : float) : float_eq a b = true <-> float_same a b.
Proof.
  unfold float_eq, SFeqb.
  destruct a as [sa|sa| |sa ma ea], b as [sb|sb| |sb mb eb]; simpl;
    try (split; [discriminate || tauto | tauto || discriminate || contradiction]);
    try (destruct sa; split; (discriminate || contradiction));
    try (destruct sb; split; (discriminate || contradiction)).
  - destruct sa, sb; split; intros H; congruence.
  - destruct sa, sb; try (split; [discriminate | intros [? _]; discriminate]).
    + destruct (Z.compare_spec ea eb) as [He|He|He];
        try (split; [discriminate | intros (_ & _ & ?); lia]).
      rewrite Pos.compare_cont_spec. simpl.
      destruct (Pos.compare_spec ma mb) as [Hm|Hm|Hm]; simpl;
        try (split; [discriminate | intros (_ & ? & _); lia]).
      subst. tauto.
    + destruct (Z.compare_spec ea eb) as [He|He|He];
        try (split; [discriminate | intros (_ & _ & ?); lia]).
      rewrite Pos.compare_cont_spec. simpl.
      destruct (Pos.compare_spec ma mb) as [Hm|Hm|Hm]; simpl;
        try (split; [discriminate | intros (_ & ? & _); lia]).
      subst. tauto.
Qed.

Lemma float_same_sym (a b : float) : float_same a b -> float_same b a.
Proof.
  destruct a, b; simpl; try tauto; try congruence.
  intros (-> & -> & ->). tauto.
Qed.

Lemma float_same_trans (a b c : float) :
  float_same a b -> float_same b c -> float_same a c.
Proof.
  destruct a, b, c; simpl; try tauto; try congruence.
  intros (-> & -> & ->) (-> & -> & ->). tauto.
Qed.

Lemma float_same_refl (a : float) : float_same a a <-> is_nan a = false.
Proof. destruct a; simpl; intuition congruence. Qed.

Lemma float_eq_sym (a b : float) : float_eq a b = float_eq b a.
Proof.
  apply eq_true_iff_eq. rewrite !float_eq_spec.
  split; apply float_same_sym.
Qed.

Lemma float_eq_trans (a b c : float) :
  float_eq a b = true -> float_eq b c = true -> float_eq a c = true.
Proof. rewrite !float_eq_spec. apply float_same_trans. Qed.

Lemma float_eq_refl (a : float) : float_eq a a = negb (is_nan a).
Proof.
  apply eq_true_iff_eq. rewrite float_eq_spec, float_same_refl.
  destruct (is_nan a); simpl; intuition congruence.
Qed.

Lemma float2_eq_sym (a b : float2) : float2_eq a b = float2_eq b a.
Proof.
  unfold float2_eq.
  now rewrite (float_eq_sym (float2_x a)), (float_eq_sym (float2_y a)).
Qed.

Lemma float2_eq_trans (a b c : float2) :
  float2_eq a b = true -> float2_eq b c = true -> float2_eq a c = true.
Proof.
  unfold float2_eq. rewrite !andb_true_iff.
  intros [? ?] [? ?]; split; eapply float_eq_trans; eassumption.
Qed.

Lemma float2_eq_refl (a : float2) : float2_eq a a = negb (float2_has_nan a).
Proof.
  unfold float2_eq, float2_has_nan.
  rewrite !float_eq_refl. now rewrite negb_orb.
Qed.

End FloatComparison.

Section SubPatchEquality.

Import SubPatch.

Lemma int_ne_false (a b : Z) : CInt.ne a b = false <-> a = b.
Proof.
  unfold CInt.ne. rewrite negb_false_iff. apply Z.eqb_eq.
Qed.

Lemma int_ne_sym (a b : Z) : CInt.ne a b = CInt.ne b a.
Proof. unfold CInt.ne. now rewrite Z.eqb_sym. Qed.

Lemma differs_at_false (a b : t) (i : idx4) :
  differs_at a b i = false <->
  get4 (edge_factors a) i = get4 (edge_factors b) i
  /\ float2_eq (get4 (uv a) i) (get4 (uv b) i) = true.
Proof.
  unfold differs_at, float2_ne.
  rewrite orb_false_iff, int_ne_false, negb_false_iff. tauto.
Qed.

(** The loop returns [true] exactly when no visited index separates the
    operands. *)
Lemma eq_loop_true (a b : t) (todo : list idx4) :
  eq_loop a b todo = true <->
  forall i, In i todo -> differs_at a b i = false.
Proof.
  induction todo as [|i rest IH]; simpl.
  - split; [intros _ i [] | reflexivity].
  - destruct (differs_at a b i) eqn:Hi.
    + split; [discriminate|]. intros H.
      specialize (H i (or_introl eq_refl)). congruence.
    + rewrite IH. split.
      * intros H j [<-|Hj]; auto.
      * intros H j Hj. apply H. now right.
Qed.

Lemma in_all_idx4 (i : idx4) : In i all_idx4.
Proof. destruct i; simpl; tauto. Qed.

Lemma op_eq_true (a b : t) :
  op_eq a b = true <->
  patch a = patch b /\ forall i, differs_at a b i = false.
Proof.
  unfold op_eq. destruct (CInt.ne (patch a) (patch b)) eqn:Hp.
  - split; [discriminate|]. intros [H _].
    apply int_ne_false in H. congruence.
  - apply int_ne_false in Hp. rewrite eq_loop_true. split.
    + intros H. split; [exact Hp|]. intros i. apply H, in_all_idx4.
    + intros [_ H] i _. apply H.
Qed.

Lemma differs_at_sym (a b : t) (i : idx4) : differs_at a b i = differs_at b a i.
Proof.
  unfold differs_at, float2_ne. now rewrite int_ne_sym, float2_eq_sym.
Qed.

Lemma op_eq_sym (a b : t) : op_eq a b = op_eq b a.
Proof.
  apply eq_true_iff_eq. rewrite !op_eq_true. split.
  - intros [Hp H]. split; [now symmetry|].
    intros i. rewrite differs_at_sym. apply H.
  - intros [Hp H]. split; [now symmetry|].
    intros i. rewrite differs_at_sym. apply H.
Qed.

Lemma op_eq_trans (a b c : t) :
  op_eq a b = true -> op_eq b c = true -> op_eq a c = true.
Proof.
  rewrite !op_eq_true. intros [Hab Dab] [Hbc Dbc].
  split; [congruence|]. intros i.
  specialize (Dab i). specialize (Dbc i).
  rewrite differs_at_false in *.
  destruct Dab as [E1 U1], Dbc as [E2 U2]. split; [congruence|].
  eapply float2_eq_trans; eassumption.
Qed.

Lemma op_eq_refl_iff (a : t) : op_eq a a = true <-> uv_nan_free a = true.
Proof.
  rewrite op_eq_true. unfold uv_nan_free. rewrite forallb_forall. split.
  - intros [_ H] i _. specialize (H i).
    apply differs_at_false in H. destruct H as [_ H].
    now rewrite float2_eq_refl in H.
  - intros H. split; [reflexivity|]. intros i.
    apply differs_at_false. split; [reflexivity|].
    rewrite float2_eq_refl. apply H, in_all_idx4.
Qed.

End SubPatchEquality.

(** C7. For every curve whose key count is an [int] above [INT_MIN] (so
    that the subtraction is defined), [num_segments()] returns the key
    count minus one. *)
Theorem num_segments_is_keys_minus_one (c : Curve.t) :
  CInt.INT_MIN < Curve.num_keys c <= CInt.INT_MAX ->
  Curve.num_segments c = Some (Curve.num_keys c - 1).
Proof.
  intros H. unfold Curve.num_segments, CInt.sub, CInt.in_range.
  unfold CInt.INT_MIN, CInt.INT_MAX in *.
  destruct (Z.leb_spec (- 2 ^ 31) (Curve.num_keys c - 1));
    destruct (Z.leb_spec (Curve.num_keys c - 1) (2 ^ 31 - 1));
    simpl; try reflexivity; lia.
Qed.

Lemma num_segments_is_keys_minus_one_witness :
  CInt.INT_MIN < Curve.num_keys (Curve.make 0 5 1) <= CInt.INT_MAX
  /\ Curve.num_segments (Curve.make 0 5 1) = Some 4.
Proof.
  split.
  - vm_compute. split; [reflexivity | discriminate].
  - apply (num_segments_is_keys_minus_one (Curve.make 0 5 1)).
    vm_compute. split; [reflexivity | discriminate].
Defined.

(** At the one [int] whose predecessor is not representable the
    subtraction of [num_segments()] has no defined result. *)
Lemma num_segments_int_min (c : Curve.t) :
  Curve.num_keys c = CInt.INT_MIN -> Curve.num_segments c = None.
Proof.
  intros H. unfold Curve.num_segments. rewrite H. reflexivity.
Qed.

(** C8. A patch is not a quad exactly when its 4th vertex index is -1, and
    a subpatch is not a quad exactly when its 4th edge factor is -1. *)
Theorem is_quad_false_iff_minus_one :
  (forall p : Patch.t,
      Patch.is_quad p = false <-> get4 (Patch.v p) I3 = -1)
  /\ (forall s : SubPatch.t,
      SubPatch.is_quad s = false <-> get4 (SubPatch.edge_factors s) I3 = -1).
Proof.
  split; intros x.
  - unfold Patch.is_quad. apply int_ne_false.
  - unfold SubPatch.is_quad. apply int_ne_false.
Qed.

(** [operator==] never reads the bounds: giving either operand another
    bounding volume leaves its result as it was. *)
Lemma op_eq_ignores_bounds (a b : SubPatch.t) (bba bbb : BoundBox) :
  SubPatch.op_eq (SubPatch.with_bounds a bba) (SubPatch.with_bounds b bbb)
  = SubPatch.op_eq a b.
Proof. reflexivity. Qed.

(** How the negation [!=] and the algebra of [==] look on samples. *)
Example op_eq_unit_quad :
  SubPatch.op_eq unit_quad_subpatch unit_quad_subpatch = true.
Proof. reflexivity. Qed.

(** C10, as stated, fails: a subpatch with a NaN among its UV coordinates is
    not equal to itself, so [==] is not reflexive. *)
Lemma subpatch_eq_not_reflexive :
  SubPatch.op_eq nan_uv_subpatch nan_uv_subpatch = false
  /\ SubPatch.op_ne nan_uv_subpatch nan_uv_subpatch = true.
Proof. split; reflexivity. Qed.

(** C10, amended.  [a != b] is the negation of [a == b]; [==] is a boolean
    (hence decidable) relation that is symmetric and transitive, and it is
    reflexive exactly on the subpatches none of whose UV coordinates is a
    NaN. *)
Theorem subpatch_ne_negates_eq_partial_equivalence :
  (forall a b, SubPatch.op_ne a b = negb (SubPatch.op_eq a b))
  /\ (forall a b, SubPatch.op_eq a b = SubPatch.op_eq b a)
  /\ (forall a b c, SubPatch.op_eq a b = true -> SubPatch.op_eq b c = true ->
                    SubPatch.op_eq a c = true)
  /\ (forall a, SubPatch.op_eq a a = true <-> SubPatch.uv_nan_free a = true).
Proof.
  split; [reflexivity|].
  split; [apply op_eq_sym|].
  split; [apply op_eq_trans|].
  apply op_eq_refl_iff.
Qed.

Lemma subpatch_ne_negates_eq_partial_equivalence_witness :
  SubPatch.op_eq unit_quad_subpatch unit_quad_boxed = true
  /\ SubPatch.op_eq unit_quad_boxed unit_quad_subpatch = true
  /\ SubPatch.op_eq unit_quad_subpatch unit_quad_subpatch = true.
Proof.
  split; [reflexivity|]. split; [reflexivity|].
  apply (proj1 (proj2 (proj2 subpatch_ne_negates_eq_partial_equivalence))
           unit_quad_subpatch unit_quad_boxed unit_quad_subpatch);
    reflexivity.
Defined.

(* ================================================================== *)
(** * Properties of the update tracker *)

Section UpdateFlags.

Import UpdateTracker.

Lemma tag_update_rebuild_dirty (sc : Scene.t) (i : nat) (m : Mesh.t) :
  Scene.meshes sc !! i = Some m -> dirty (tag_update sc i true) i.
Proof.
  intros Hm. split; [|reflexivity].
  exists (tag_mesh true m). simpl.
  rewrite list_lookup_alter_eq, Hm. repeat split.
Qed.

Lemma tag_mesh_keeps_dirty (rebuild : bool) (m : Mesh.t) :
  Mesh.need_update m = true -> Mesh.need_update_rebuild m = true ->
  Mesh.need_update (tag_mesh rebuild m) = true
  /\ Mesh.need_update_rebuild (tag_mesh rebuild m) = true.
Proof.
  intros _ Hr. split; [reflexivity|]. simpl. now destruct rebuild.
Qed.

Lemma step_keeps_dirty (sc : Scene.t) (i : nat) (e : event) :
  e <> DeviceUpdate Completed -> dirty sc i -> dirty (step sc e) i.
Proof.
  intros He [(m & Hm & Hu & Hr) Hmm].
  destruct e as [j rebuild | [ | ]]; simpl.
  - split; [|reflexivity].
    destruct (decide (j = i)) as [->|Hne].
    + exists (tag_mesh rebuild m). simpl.
      rewrite list_lookup_alter_eq, Hm. split; [reflexivity|].
      now apply tag_mesh_keeps_dirty.
    + exists m. simpl. rewrite list_lookup_alter_ne by exact Hne. auto.
  - congruence.
  - split; [exists m|]; auto.
Qed.

Lemma run_keeps_dirty (tr : list event) (sc : Scene.t) (i : nat) :
  no_completed_pass tr -> dirty sc i -> dirty (run sc tr) i.
Proof.
  unfold run, no_completed_pass.
  revert sc. induction tr as [|e tr IH]; intros sc Hall Hd; simpl.
  - exact Hd.
  - apply Forall_cons in Hall as [He Hall].
    apply IH; [exact Hall|]. now apply step_keeps_dirty.
Qed.

Lemma completed_pass_cleans (sc : Scene.t) (i : nat) :
  dirty sc i -> flags_are (device_update Completed sc) i false.
Proof.
  intros [(m & Hm & _ & _) Hmm].
  exists (clear_mesh m). simpl. rewrite Hmm.
  rewrite list_lookup_fmap, Hm. repeat split.
Qed.

End UpdateFlags.

(** C3.  After [tag_update(scene, rebuild = true)] on a mesh of the scene,
    [need_update] and [need_update_rebuild] of that mesh are both true
    after every sequence of further tags (of any mesh, with any [rebuild])
    and cancelled passes, and both are false after the completed
    device-update pass that follows. *)
Theorem tag_update_rebuild_dirty_until_completed_pass
  (sc : Scene.t) (i : nat) (m : Mesh.t) (tr : list UpdateTracker.event) :
  Scene.meshes sc !! i = Some m ->
  UpdateTracker.no_completed_pass tr ->
  UpdateTracker.flags_are
    (UpdateTracker.run (UpdateTracker.tag_update sc i true) tr) i true
  /\ UpdateTracker.flags_are
       (UpdateTracker.device_update UpdateTracker.Completed
          (UpdateTracker.run (UpdateTracker.tag_update sc i true) tr)) i false.
Proof.
  intros Hm Htr.
  assert (Hd : UpdateTracker.dirty (UpdateTracker.run (UpdateTracker.tag_update sc i true) tr) i).
  { apply run_keeps_dirty; [exact Htr|].
    eapply tag_update_rebuild_dirty; exact Hm. }
  split; [apply Hd | now apply completed_pass_cleans].
Qed.

Lemma tag_update_rebuild_dirty_until_completed_pass_witness :
  UpdateTracker.flags_are
    (UpdateTracker.run (UpdateTracker.tag_update two_mesh_scene 0%nat true)
                       quiet_trace) 0%nat true
  /\ UpdateTracker.flags_are
       (UpdateTracker.device_update UpdateTracker.Completed
          (UpdateTracker.run (UpdateTracker.tag_update two_mesh_scene 0%nat true)
                             quiet_trace)) 0%nat false.
Proof.
  apply (tag_update_rebuild_dirty_until_completed_pass
           two_mesh_scene 0%nat Mesh.empty quiet_trace).
  - reflexivity.
  - unfold UpdateTracker.no_completed_pass, quiet_trace.
    repeat constructor; discriminate.
Defined.

(** A pass that is not preceded by any tag finds nothing to do: the flags
    of an untagged clean scene stay clear. *)
Example completed_pass_on_clean_scene :
  UpdateTracker.device_update UpdateTracker.Completed two_mesh_scene
  = two_mesh_scene.
Proof. reflexivity. Qed.

(** C5.  [need_build_bvh()] is true for a mesh that at least 2 instances
    reference and that needs mesh-local intersection, and false for a mesh
    with a single instance and no such need. *)
Theorem need_build_bvh_instanced_and_local :
  (forall n : nat, (2 <= n)%nat -> UpdateTracker.need_build_bvh n true = true)
  /\ UpdateTracker.need_build_bvh 1%nat false = false.
Proof.
  split; [|reflexivity].
  intros n Hn. unfold UpdateTracker.need_build_bvh. apply orb_true_r.
Qed.

Lemma need_build_bvh_instanced_and_local_witness :
  UpdateTracker.need_build_bvh 3%nat true = true.
Proof.
  apply (proj1 need_build_bvh_instanced_and_local 3%nat). lia.
Defined.

(** Either reason is enough on its own, as the header comment lists them. *)
Lemma need_build_bvh_either (n : nat) (local_intersection : bool) :
  UpdateTracker.need_build_bvh n local_intersection = true <->
  (2 <= n)%nat \/ local_intersection = true.
Proof.
  unfold UpdateTracker.need_build_bvh.
  rewrite orb_true_iff, Nat.leb_le. tauto.
Qed.

(* ================================================================== *)
(** * Properties of the device packer *)

Section Stores.

Import Packer.

Context {A : Type}.
Implicit Types (ws : list (nat * A)) (buf : list A).

Lemma store_inv buf w buf' :
  store buf w = Some buf' ->
  (w.1 < length buf)%nat /\ buf' = <[w.1 := w.2]> buf.
Proof.
  unfold store. destruct (decide (w.1 < length buf)%nat); [|discriminate].
  intros [= <-]. auto.
Qed.

Lemma store_all_cons_inv w ws buf buf' :
  store_all (w :: ws) buf = Some buf' ->
  (w.1 < length buf)%nat /\ store_all ws (<[w.1 := w.2]> buf) = Some buf'.
Proof.
  simpl. destruct (store buf w) as [b|] eqn:Hs; [|discriminate].
  apply store_inv in Hs as [Hlt ->]. simpl. auto.
Qed.

Lemma store_all_length ws buf buf' :
  store_all ws buf = Some buf' -> length buf' = length buf.
Proof.
  revert buf. induction ws as [|w ws IH]; intros buf.
  - now intros [= <-].
  - intros [_ H]%store_all_cons_inv.
    apply IH in H. now rewrite length_insert in H.
Qed.

Lemma store_all_in_bounds ws buf buf' :
  store_all ws buf = Some buf' ->
  Forall (fun w => (w.1 < length buf)%nat) ws.
Proof.
  revert buf. induction ws as [|w ws IH]; intros buf; [constructor|].
  intros [Hlt H]%store_all_cons_inv. constructor; [exact Hlt|].
  apply IH in H. now rewrite length_insert in H.
Qed.

(** Inside the buffer every assignment succeeds. *)
Lemma store_all_total ws buf :
  Forall (fun w => (w.1 < length buf)%nat) ws ->
  exists buf', store_all ws buf = Some buf'.
Proof.
  revert buf. induction ws as [|w ws IH]; intros buf Hall.
  - now exists buf.
  - apply Forall_cons in Hall as [Hlt Hall]. simpl. unfold store.
    destruct (decide (w.1 < length buf)%nat); [|contradiction]. simpl.
    apply IH. now rewrite length_insert.
Qed.

(** A slot holds the last value assigned to it, or what it held before. *)
Lemma store_all_lookup ws buf buf' (slot : nat) :
  store_all ws buf = Some buf' ->
  buf' !! slot = match written ws slot with
                 | Some x => Some x
                 | None => buf !! slot
                 end.
Proof.
  revert buf. induction ws as [|w ws IH]; intros buf.
  - now intros [= <-].
  - intros [Hlt H]%store_all_cons_inv. simpl.
    rewrite (IH _ H). destruct (written ws slot); [reflexivity|].
    destruct (decide (w.1 = slot)) as [<-|Hne].
    + now apply list_lookup_insert_eq.
    + now apply list_lookup_insert_ne.
Qed.

(** Assigning the same sequence again changes nothing. *)
Lemma store_all_idempotent ws buf buf' :
  store_all ws buf = Some buf' -> store_all ws buf' = Some buf'.
Proof.
  intros H.
  pose proof (store_all_in_bounds _ _ _ H) as Hb.
  pose proof (store_all_length _ _ _ H) as Hlen.
  rewrite <- Hlen in Hb.
  destruct (store_all_total _ _ Hb) as [buf'' H2].
  rewrite H2. f_equal. apply list_eq. intros slot.
  rewrite (store_all_lookup _ _ _ slot H2).
  pose proof (store_all_lookup _ _ _ slot H) as H1.
  destruct (written ws slot); [now rewrite H1 | reflexivity].
Qed.

End Stores.

Section PackTwice.

Import Packer.

(** Packing into the buffers that a first packing left, with the mesh that
    it left, repeats the first packing's result. *)
Lemma pack_verts_idempotent (m m' : Mesh.t) (tv tv' : list float4)
  (ti ti' : list vindex) (vert_offset : nat) :
  pack_verts m tv ti vert_offset = Some (m', tv', ti') ->
  pack_verts m' tv' ti' vert_offset = Some (m', tv', ti').
Proof.
  unfold pack_verts. intros H.
  destruct (mapM id (imap (triangle_writes (Mesh.verts m) vert_offset)
                          (Mesh.triangles m))) as [vws|] eqn:Hw;
    [|discriminate].
  simpl in H.
  destruct (store_all (concat vws) tv) as [tv1|] eqn:Hv; [|discriminate].
  simpl in H.
  destruct (store_all (imap (index_write vert_offset (Mesh.tri_offset m))
                            (Mesh.triangles m)) ti) as [ti1|] eqn:Hi;
    [|discriminate].
  simpl in H. injection H as <- <- <-. simpl.
  rewrite Hw. simpl.
  rewrite (store_all_idempotent _ _ _ Hv). simpl.
  rewrite (store_all_idempotent _ _ _ Hi). reflexivity.
Qed.

Lemma pack_curves_idempotent (m m' : Mesh.t) (sc : Scene.t)
  (kc kc' : list float4) (cd cd' : list curve_data) (curvekey_offset : nat) :
  pack_curves m sc kc cd curvekey_offset = Some (m', kc', cd') ->
  pack_curves m' sc kc' cd' curvekey_offset = Some (m', kc', cd').
Proof.
  unfold pack_curves. intros H.
  destruct (mapM id (imap (curve_write (Scene.shaders sc) (Mesh.curve_offset m)
                                       curvekey_offset)
                          (Mesh.curves m))) as [cws|] eqn:Hw;
    [|discriminate].
  simpl in H.
  destruct (store_all (imap (key_write curvekey_offset) (Mesh.curve_keys m)) kc)
    as [kc1|] eqn:Hk; [|discriminate].
  simpl in H.
  destruct (store_all cws cd) as [cd1|] eqn:Hc; [|discriminate].
  simpl in H. injection H as <- <- <-. simpl.
  rewrite Hw. simpl.
  rewrite (store_all_idempotent _ _ _ Hk). simpl.
  rewrite (store_all_idempotent _ _ _ Hc). reflexivity.
Qed.

End PackTwice.

(** C4.  [pack_verts] and [pack_curves] are idempotent: packing a second
    time, with the mesh and the buffers as the first packing left them and
    with the same base offset, returns the same mesh and the same two
    buffers. *)
Theorem pack_verts_pack_curves_idempotent :
  (forall (m m' : Mesh.t) (tv tv' : list float4)
          (ti ti' : list Packer.vindex) (vert_offset : nat),
      Packer.pack_verts m tv ti vert_offset = Some (m', tv', ti') ->
      Packer.pack_verts m' tv' ti' vert_offset = Some (m', tv', ti'))
  /\ (forall (m m' : Mesh.t) (sc : Scene.t) (kc kc' : list float4)
             (cd cd' : list Packer.curve_data) (curvekey_offset : nat),
      Packer.pack_curves m sc kc cd curvekey_offset = Some (m', kc', cd') ->
      Packer.pack_curves m' sc kc' cd' curvekey_offset = Some (m', kc', cd')).
Proof.
  split.
  - apply pack_verts_idempotent.
  - apply pack_curves_idempotent.
Qed.

Lemma pack_verts_pack_curves_idempotent_witness :
  (Packer.pack_verts one_triangle_mesh fresh_tri_verts fresh_tri_vindex 2
   = Some (packed_verts_mesh, packed_tri_verts, packed_tri_vindex)
   /\ Packer.pack_verts packed_verts_mesh packed_tri_verts packed_tri_vindex 2
      = Some (packed_verts_mesh, packed_tri_verts, packed_tri_vindex))
  /\ (Packer.pack_curves one_triangle_mesh two_mesh_scene
        fresh_curve_key_co fresh_curve_records 3
      = Some (packed_curves_mesh, packed_curve_key_co, packed_curve_records)
      /\ Packer.pack_curves packed_curves_mesh two_mesh_scene
           packed_curve_key_co packed_curve_records 3
         = Some (packed_curves_mesh, packed_curve_key_co, packed_curve_records)).
Proof.
  split; (split; [reflexivity|]).
  - apply (proj1 pack_verts_pack_curves_idempotent
             one_triangle_mesh packed_verts_mesh
             fresh_tri_verts packed_tri_verts
             fresh_tri_vindex packed_tri_vindex 2%nat).
    reflexivity.
  - apply (proj2 pack_verts_pack_curves_idempotent
             one_triangle_mesh packed_curves_mesh two_mesh_scene
             fresh_curve_key_co packed_curve_key_co
             fresh_curve_records packed_curve_records 3%nat).
    reflexivity.
Defined.

(** What a packing writes does not depend on what the buffer held: two
    runs of the same assignments into any two buffers agree on every slot
    that the assignments touch. *)
Lemma store_all_same_written {A : Type} (ws : list (nat * A))
  (buf1 buf2 out1 out2 : list A) (slot : nat) (x : A) :
  Packer.store_all ws buf1 = Some out1 ->
  Packer.store_all ws buf2 = Some out2 ->
  Packer.written ws slot = Some x ->
  out1 !! slot = Some x /\ out2 !! slot = Some x.
Proof.
  intros H1 H2 Hw.
  rewrite (store_all_lookup _ _ _ slot H1), (store_all_lookup _ _ _ slot H2).
  now rewrite Hw.
Qed.

(** A write outside the buffer, or a triangle that names a vertex the mesh
    does not have, leaves the packing without a result. *)
Example pack_verts_short_buffer :
  Packer.pack_verts one_triangle_mesh fresh_tri_verts fresh_tri_vindex 4 = None.
Proof. reflexivity. Qed.

(** Where both UVs are free of NaNs, identical fields make two subpatches
    equal: the ordinary reading of "the same UVs" is enough for [==]. *)
Lemma subpatch_eq_of_identical_fields (a b : SubPatch.t) :
  SubPatch.patch a = SubPatch.patch b ->
  SubPatch.edge_factors a = SubPatch.edge_factors b ->
  SubPatch.uv a = SubPatch.uv b ->
  SubPatch.uv_nan_free a = true ->
  SubPatch.op_eq a b = true.
Proof.
  intros Hp He Hu Hn.
  apply op_eq_refl_iff in Hn. apply op_eq_true in Hn as [_ Hn].
  apply op_eq_true. split; [exact Hp|]. intros i.
  specialize (Hn i). unfold SubPatch.differs_at in *.
  now rewrite <- He, <- Hu.
Qed.

(* ================================================================== *)
(** * Further properties of the inline member functions *)

Section CanonicalForm.

Lemma array4_ext {A : Type} (a b : array4 A) :
  (forall i, get4 a i = get4 b i) <-> a = b.
Proof.
  split; [|now intros ->].
  intros H. destruct a, b.
  pose proof (H I0) as H0. pose proof (H I1) as H1.
  pose proof (H I2) as H2. pose proof (H I3) as H3.
  simpl in *. congruence.
Qed.

Lemma get4_map4 {A B : Type} (f : A -> B) (a : array4 A) (i : idx4) :
  get4 (map4 f a) i = f (get4 a i).
Proof. now destruct i. Qed.

(** The float [==] is identity of the operands once the sign of a zero
    is cleared, and it never holds with a NaN. *)
Lemma float_eq_unsigned_zero (a b : float) :
  float_eq a b = true <->
  is_nan a = false /\ is_nan b = false
  /\ float_unsigned_zero a = float_unsigned_zero b.
Proof.
  rewrite float_eq_spec.
  destruct a as [sa|sa| |sa ma ea], b as [sb|sb| |sb mb eb]; simpl;
    try (split; [contradiction | intros (? & ? & ?); discriminate]);
    try (split; [intros _; auto | tauto]).
  - split; [intros ->; auto | intros (_ & _ & [= ->]); reflexivity].
  - split; [intros (-> & -> & ->); auto | intros (_ & _ & [= -> -> ->]); auto].
Qed.

Lemma float2_eq_unsigned_zero (u v : float2) :
  float2_eq u v = true <->
  float2_has_nan u = false /\ float2_has_nan v = false
  /\ float2_unsigned_zero u = float2_unsigned_zero v.
Proof.
  unfold float2_eq, float2_has_nan, float2_unsigned_zero.
  rewrite andb_true_iff, !float_eq_unsigned_zero, !orb_false_iff.
  split.
  - intros [(? & ? & ->) (? & ? & ->)]. auto.
  - intros ((? & ?) & (? & ?) & [= -> ->]). auto.
Qed.

Lemma float_plain_unsigned_zero (a : float) :
  float_plain a = true -> float_unsigned_zero a = a /\ is_nan a = false.
Proof. destruct a as [[]| | |]; simpl; auto; discriminate. Qed.

Lemma float2_eq_plain (u v : float2) :
  float2_plain u = true -> float2_plain v = true ->
  (float2_eq u v = true <-> u = v).
Proof.
  unfold float2_plain. rewrite !andb_true_iff.
  intros [Hux Huy] [Hvx Hvy].
  apply float_plain_unsigned_zero in Hux as [Zux Nux], Huy as [Zuy Nuy].
  apply float_plain_unsigned_zero in Hvx as [Zvx Nvx], Hvy as [Zvy Nvy].
  rewrite float2_eq_unsigned_zero.
  unfold float2_has_nan, float2_unsigned_zero.
  rewrite Zux, Zuy, Zvx, Zvy, Nux, Nuy, Nvx, Nvy.
  destruct u, v; simpl. intuition congruence.
Qed.

Lemma uv_nan_free_at (s : SubPatch.t) :
  SubPatch.uv_nan_free s = true <->
  forall i, float2_has_nan (get4 (SubPatch.uv s) i) = false.
Proof.
  unfold SubPatch.uv_nan_free. rewrite forallb_forall. split.
  - intros H i. apply negb_true_iff, H, in_all_idx4.
  - intros H i _. apply negb_true_iff, H.
Qed.

Lemma uv_plain_at (s : SubPatch.t) :
  uv_plain s = true <->
  forall i, float2_plain (get4 (SubPatch.uv s) i) = true.
Proof.
  unfold uv_plain. rewrite forallb_forall. split.
  - intros H i. apply H, in_all_idx4.
  - intros H i _. apply H.
Qed.

End CanonicalForm.

(** X1.  Subpatches that [operator==] finds equal are of the same kind:
    both quads or both triangles. *)
Theorem equal_subpatches_same_kind (a b : SubPatch.t) :
  SubPatch.op_eq a b = true -> SubPatch.is_quad a = SubPatch.is_quad b.
Proof.
  intros H. apply op_eq_true in H as [_ H].
  specialize (H I3). apply differs_at_false in H as [H _].
  unfold SubPatch.is_quad. now rewrite H.
Qed.

Lemma equal_subpatches_same_kind_witness :
  SubPatch.op_eq unit_quad_subpatch unit_quad_boxed = true
  /\ SubPatch.is_quad unit_quad_subpatch = SubPatch.is_quad unit_quad_boxed.
Proof.
  split; [reflexivity|].
  apply (equal_subpatches_same_kind unit_quad_subpatch unit_quad_boxed).
  reflexivity.
Defined.

(** X2.  A subpatch with a NaN among its UV coordinates is unequal to every
    subpatch, on either side of [operator==]. *)
Theorem nan_subpatch_equals_nothing (a b : SubPatch.t) :
  SubPatch.uv_nan_free a = false ->
  SubPatch.op_eq a b = false /\ SubPatch.op_eq b a = false.
Proof.
  intros Hnan.
  assert (Hab : SubPatch.op_eq a b = false).
  { destruct (SubPatch.op_eq a b) eqn:Hab; [|reflexivity].
    assert (Haa : SubPatch.op_eq a a = true).
    { apply (op_eq_trans a b a); [exact Hab|].
      now rewrite op_eq_sym. }
    apply op_eq_refl_iff in Haa. congruence. }
  split; [exact Hab|]. now rewrite op_eq_sym.
Qed.

Lemma nan_subpatch_equals_nothing_witness :
  SubPatch.uv_nan_free nan_uv_subpatch = false
  /\ SubPatch.op_eq nan_uv_subpatch unit_quad_subpatch = false
  /\ SubPatch.op_eq unit_quad_subpatch nan_uv_subpatch = false.
Proof.
  split; [reflexivity|].
  apply (nan_subpatch_equals_nothing nan_uv_subpatch unit_quad_subpatch).
  reflexivity.
Defined.

(** X3.  [a == b] holds exactly when neither operand has a NaN among its UV
    coordinates and the two have the same patch index, edge factors and
    UVs once the sign of every zero UV coordinate is cleared. *)
Theorem subpatch_eq_iff_same_canonical_key (a b : SubPatch.t) :
  SubPatch.op_eq a b = true <->
  SubPatch.uv_nan_free a = true /\ SubPatch.uv_nan_free b = true
  /\ subpatch_key (subpatch_unsigned_zeros a)
     = subpatch_key (subpatch_unsigned_zeros b).
Proof.
  rewrite op_eq_true, !uv_nan_free_at.
  unfold subpatch_key, subpatch_unsigned_zeros.
  cbn [SubPatch.patch SubPatch.edge_factors SubPatch.uv]. split.
  - intros [Hp H].
    assert (He : SubPatch.edge_factors a = SubPatch.edge_factors b).
    { apply array4_ext. intros i. now apply (differs_at_false a b i). }
    assert (Hu : forall i,
               float2_eq (get4 (SubPatch.uv a) i) (get4 (SubPatch.uv b) i)
               = true).
    { intros i. now apply (differs_at_false a b i). }
    assert (Hz : forall i,
               float2_has_nan (get4 (SubPatch.uv a) i) = false
               /\ float2_has_nan (get4 (SubPatch.uv b) i) = false
               /\ float2_unsigned_zero (get4 (SubPatch.uv a) i)
                  = float2_unsigned_zero (get4 (SubPatch.uv b) i)).
    { intros i. apply float2_eq_unsigned_zero, Hu. }
    split; [|split].
    + intros i. apply (Hz i).
    + intros i. apply (Hz i).
    + rewrite Hp, He. f_equal. apply array4_ext. intros i.
      rewrite !get4_map4. apply (Hz i).
  - intros (Na & Nb & Hk).
    pose proof (f_equal (fun k => fst (fst k)) Hk) as Hp.
    pose proof (f_equal (fun k => snd (fst k)) Hk) as He.
    pose proof (f_equal snd Hk) as Hu.
    cbn [fst snd] in Hp, He, Hu.
    split; [exact Hp|].
    intros i. apply differs_at_false. split; [now rewrite He|].
    apply float2_eq_unsigned_zero. split; [apply Na|]. split; [apply Nb|].
    rewrite <- (get4_map4 float2_unsigned_zero (SubPatch.uv a) i).
    rewrite <- (get4_map4 float2_unsigned_zero (SubPatch.uv b) i).
    now rewrite Hu.
Qed.

(** X4.  On subpatches whose UV coordinates are neither NaNs nor negative
    zeros, [a == b] holds exactly when patch index, edge factors and UVs
    are identical. *)
Theorem subpatch_eq_iff_same_key_on_plain_uvs (a b : SubPatch.t) :
  uv_plain a = true -> uv_plain b = true ->
  (SubPatch.op_eq a b = true <-> subpatch_key a = subpatch_key b).
Proof.
  rewrite !uv_plain_at. intros Pa Pb.
  rewrite op_eq_true. unfold subpatch_key. split.
  - intros [Hp H]. rewrite Hp. f_equal; [f_equal|].
    + apply array4_ext. intros i. now apply (differs_at_false a b i).
    + apply array4_ext. intros i.
      apply (float2_eq_plain _ _ (Pa i) (Pb i)).
      now apply (differs_at_false a b i).
  - intros [= Hp He Hu]. split; [exact Hp|].
    intros i. apply differs_at_false. split; [now rewrite He|].
    apply (float2_eq_plain _ _ (Pa i) (Pb i)). now rewrite Hu.
Qed.

Lemma subpatch_eq_iff_same_key_on_plain_uvs_witness :
  uv_plain unit_quad_subpatch = true /\ uv_plain unit_quad_boxed = true
  /\ (SubPatch.op_eq unit_quad_subpatch unit_quad_boxed = true
      <-> subpatch_key unit_quad_subpatch = subpatch_key unit_quad_boxed).
Proof.
  split; [reflexivity|]. split; [reflexivity|].
  apply (subpatch_eq_iff_same_key_on_plain_uvs
           unit_quad_subpatch unit_quad_boxed); reflexivity.
Defined.

(** X5.  Equal subpatches can stand for each other: if [a == b], then
    [a == c] and [b == c] have the same result for every [c], and so have
    [a != c] and [b != c]. *)
Theorem equal_subpatches_interchangeable (a b c : SubPatch.t) :
  SubPatch.op_eq a b = true ->
  SubPatch.op_eq a c = SubPatch.op_eq b c
  /\ SubPatch.op_ne a c = SubPatch.op_ne b c.
Proof.
  intros Hab.
  assert (H : SubPatch.op_eq a c = SubPatch.op_eq b c).
  { apply eq_true_iff_eq. split; intros H.
    - apply (op_eq_trans b a c); [now rewrite op_eq_sym | exact H].
    - apply (op_eq_trans a b c); assumption. }
  split; [exact H|]. unfold SubPatch.op_ne. now rewrite H.
Qed.

Lemma equal_subpatches_interchangeable_witness :
  SubPatch.op_eq unit_quad_subpatch unit_quad_boxed = true
  /\ SubPatch.op_eq unit_quad_subpatch nan_uv_subpatch
     = SubPatch.op_eq unit_quad_boxed nan_uv_subpatch
  /\ SubPatch.op_ne unit_quad_subpatch nan_uv_subpatch
     = SubPatch.op_ne unit_quad_boxed nan_uv_subpatch.
Proof.
  split; [reflexivity|].
  apply (equal_subpatches_interchangeable
           unit_quad_subpatch unit_quad_boxed nan_uv_subpatch).
  reflexivity.
Defined.

(** X6.  For a key count that is an [int], the subtraction in
    [num_segments()] is without a defined result exactly when the key
    count is [INT_MIN]. *)
Theorem num_segments_undefined_iff_int_min (c : Curve.t) :
  CInt.in_range (Curve.num_keys c) = true ->
  (Curve.num_segments c = None <-> Curve.num_keys c = CInt.INT_MIN).
Proof.
  unfold Curve.num_segments, CInt.sub, CInt.in_range.
  rewrite andb_true_iff, !Z.leb_le.
  unfold CInt.INT_MIN, CInt.INT_MAX. intros [Hlo Hhi].
  destruct (Z.leb_spec (- 2 ^ 31) (Curve.num_keys c - 1));
    destruct (Z.leb_spec (Curve.num_keys c - 1) (2 ^ 31 - 1)); simpl;
    split; intros Hx; try discriminate; try reflexivity; lia.
Qed.

Lemma num_segments_undefined_iff_int_min_witness :
  CInt.in_range (Curve.num_keys int_min_curve) = true
  /\ Curve.num_segments int_min_curve = None.
Proof.
  split; [reflexivity|].
  apply (num_segments_undefined_iff_int_min int_min_curve);
    reflexivity.
Defined.

Lemma lor_land_absorb (f g : Z) : Z.lor (Z.land f g) g = g.
Proof.
  apply Z.bits_inj'. intros n _.
  rewrite Z.lor_spec, Z.land_spec.
  now destruct (Z.testbit f n), (Z.testbit g n).
Qed.

(** X7.  The two geometry flags are separate bits: raising one in a flags
    word leaves the test of the other as it was, neither is set in
    [GEOMETRY_NONE], and a raised flag tests as set. *)
Theorem geometry_flags_independent (f : Z) :
  Z.land (Z.lor f GEOMETRY_TRIANGLES) GEOMETRY_CURVES
  = Z.land f GEOMETRY_CURVES
  /\ Z.land (Z.lor f GEOMETRY_CURVES) GEOMETRY_TRIANGLES
     = Z.land f GEOMETRY_TRIANGLES
  /\ Z.land (Z.lor f GEOMETRY_TRIANGLES) GEOMETRY_TRIANGLES
     = GEOMETRY_TRIANGLES
  /\ Z.land (Z.lor f GEOMETRY_CURVES) GEOMETRY_CURVES = GEOMETRY_CURVES
  /\ Z.land GEOMETRY_NONE GEOMETRY_TRIANGLES = 0
  /\ Z.land GEOMETRY_NONE GEOMETRY_CURVES = 0.
Proof.
  unfold GEOMETRY_TRIANGLES, GEOMETRY_CURVES, GEOMETRY_NONE.
  change (Z.shiftl 1 0) with 1. change (Z.shiftl 1 1) with 2.
  repeat split.
  - rewrite Z.land_lor_distr_l. change (Z.land 1 2) with 0.
    apply Z.lor_0_r.
  - rewrite Z.land_lor_distr_l. change (Z.land 2 1) with 0.
    apply Z.lor_0_r.
  - rewrite Z.land_lor_distr_l. change (Z.land 1 1) with 1.
    apply lor_land_absorb.
  - rewrite Z.land_lor_distr_l. change (Z.land 2 2) with 2.
    apply lor_land_absorb.
Qed.

(** X8.  The displacement methods are numbered without gaps from 0, and
    [DISPLACE_NUM_METHODS] is their number: distinct enumerators have
    distinct values, and the values below that of [DISPLACE_NUM_METHODS]
    are exactly those of the methods. *)
Theorem displacement_methods_numbered :
  (forall d1 d2,
      DisplacementMethod_value d1 = DisplacementMethod_value d2 -> d1 = d2)
  /\ (forall z,
        0 <= z < DisplacementMethod_value DISPLACE_NUM_METHODS <->
        exists d, d <> DISPLACE_NUM_METHODS /\ DisplacementMethod_value d = z).
Proof.
  split.
  - intros [] []; simpl; intros H; congruence || discriminate H.
  - intros z. simpl. split.
    + intros Hz.
      assert (Hc : z = 0 \/ z = 1 \/ z = 2) by lia.
      destruct Hc as [->|[->| ->]].
      * exists DISPLACE_BUMP. split; [discriminate | reflexivity].
      * exists DISPLACE_TRUE. split; [discriminate | reflexivity].
      * exists DISPLACE_BOTH. split; [discriminate | reflexivity].
    + intros ([] & Hd & <-); simpl; try lia. congruence.
Qed.

Lemma displacement_methods_numbered_witness :
  DisplacementMethod_value DISPLACE_BOTH = DisplacementMethod_value DISPLACE_BOTH
  /\ 0 <= 2 < DisplacementMethod_value DISPLACE_NUM_METHODS
  /\ exists d, d <> DISPLACE_NUM_METHODS /\ DisplacementMethod_value d = 2.
Proof.
  split; [reflexivity|]. split; [simpl; lia|].
  apply (proj2 displacement_methods_numbered 2).
  simpl; lia.
Defined.

(* ================================================================== *)
(** * What [operator==] compares *)

Lemma op_eq_canonical (a b : SubPatch.t) :
  SubPatch.op_eq a b = true <->
  SubPatch.uv_nan_free a = true /\ SubPatch.uv_nan_free b = true
  /\ SubPatch.patch a = SubPatch.patch b
  /\ SubPatch.edge_factors a = SubPatch.edge_factors b
  /\ map4 float2_unsigned_zero (SubPatch.uv a)
     = map4 float2_unsigned_zero (SubPatch.uv b).
Proof.
  rewrite op_eq_true, !uv_nan_free_at. split.
  - intros [Hp H].
    assert (Hz : forall i,
               float2_has_nan (get4 (SubPatch.uv a) i) = false
               /\ float2_has_nan (get4 (SubPatch.uv b) i) = false
               /\ float2_unsigned_zero (get4 (SubPatch.uv a) i)
                  = float2_unsigned_zero (get4 (SubPatch.uv b) i)).
    { intros i. apply float2_eq_unsigned_zero.
      now apply (differs_at_false a b i). }
    split; [intros i; apply (Hz i)|].
    split; [intros i; apply (Hz i)|].
    split; [exact Hp|]. split.
    + apply array4_ext. intros i. now apply (differs_at_false a b i).
    + apply array4_ext. intros i. rewrite !get4_map4. apply (Hz i).
  - intros (Na & Nb & Hp & He & Hu). split; [exact Hp|].
    intros i. apply differs_at_false. split; [now rewrite He|].
    apply float2_eq_unsigned_zero. split; [apply Na|]. split; [apply Nb|].
    rewrite <- (get4_map4 float2_unsigned_zero (SubPatch.uv a) i).
    rewrite <- (get4_map4 float2_unsigned_zero (SubPatch.uv b) i).
    now rewrite Hu.
Qed.

(** C6, as stated, fails in both directions.  A subpatch with a NaN among
    its UV coordinates has the same patch index, edge factors and UVs as
    itself and is not [==] to itself; and two subpatches whose UVs differ
    in the sign of a zero coordinate are [==]. *)
Lemma subpatch_eq_not_identity_of_fields :
  (subpatch_key nan_uv_subpatch = subpatch_key nan_uv_subpatch
   /\ SubPatch.op_eq nan_uv_subpatch nan_uv_subpatch = false)
  /\ (SubPatch.op_eq unit_quad_subpatch neg_zero_uv_subpatch = true
      /\ SubPatch.uv unit_quad_subpatch <> SubPatch.uv neg_zero_uv_subpatch).
Proof.
  split; split; try reflexivity. discriminate.
Qed.

(** C6, amended.  [a == b] holds iff neither [a] nor [b] has a NaN among
    its UV coordinates and the two have the same parent patch index, the
    same 4 edge factors and the same 4 corner UVs up to the sign of zero
    coordinates; the bounds of neither operand take part in the result. *)
Theorem subpatch_eq_iff_same_fields_up_to_zero_sign (a b : SubPatch.t) :
  (SubPatch.op_eq a b = true <->
     SubPatch.uv_nan_free a = true /\ SubPatch.uv_nan_free b = true
     /\ SubPatch.patch a = SubPatch.patch b
     /\ SubPatch.edge_factors a = SubPatch.edge_factors b
     /\ map4 float2_unsigned_zero (SubPatch.uv a)
        = map4 float2_unsigned_zero (SubPatch.uv b))
  /\ (forall bba bbb : BoundBox,
        SubPatch.op_eq (SubPatch.with_bounds a bba) (SubPatch.with_bounds b bbb)
        = SubPatch.op_eq a b).
Proof.
  split.
  - apply op_eq_canonical.
  - intros bba bbb. apply op_eq_ignores_bounds.
Qed.
